(** * near-api-js: the declared surface of [Account] (lib/account.d.ts)

    The file under study is a TypeScript declaration file.  It is embedded
    twice:

    - [Decl] transcribes the declarations themselves (imports, interfaces,
      the ambient class and its members with their modifiers, parameter
      lists and result types), so that statements about what the file
      declares are statements about one closed term, [account_d_ts];
    - [Values] gives the declared interfaces as records and the instance
      state of the class as a record over a finite map, for the statements
      about instances;
    - [Conformance] gives the values of the declared types, and [Surface]
      the checks on the declarations as a whole.  *)

From Stdlib Require Import ZArith.
From stdpp Require Import base strings list gmap.

Local Open Scope string_scope.
Local Open Scope list_scope.

(** ** Small string helpers *)

(** [contains needle hay]: [needle] occurs somewhere in [hay]. *)
Fixpoint contains (needle hay : string) : bool :=
  String.prefix needle hay
  || match hay with
     | EmptyString => false
     | String _ rest => contains needle rest
     end.

Definition mem_string (x : string) (xs : list string) : bool :=
  existsb (String.eqb x) xs.

(** ** The declarations *)

Module Decl.

(** Type expressions, as far as the file uses them. *)
#[warnings="-register-all"]
Inductive ty : Type :=
| TString
| TBoolean
| TAny
| TObject                                        (* the keyword type [object] *)
| TRef (name : string)                           (* a named type: BN, Action, ... *)
| TArray (elem : ty)                             (* T[] and Array<T> *)
| TPromise (result : ty)                         (* Promise<T> *)
| TUnion (l r : ty)                              (* L | R *)
| TTuple (items : list ty)                       (* [A, B] *)
| TFun (params : list (string * ty)) (ret : ty)  (* (x: A) => B *)
| TLit (props : list (string * ty))              (* { k: A; ... } *)
| TIndex (key value : ty).                       (* { [key: K]: V } *)

Inductive access : Type := Public | Protected | Private.

(** A property signature: [readonly? name?: type]. *)
Record prop : Type := Prop_
  { p_name : string;
    p_optional : bool;
    p_readonly : bool;
    p_type : ty }.

(** A parameter binds a name or destructures an object pattern. *)
Inductive binding : Type :=
| Named (x : string)
| Destructured (xs : list string).

Record param : Type := Param
  { b_binding : binding;
    b_optional : bool;
    b_type : ty }.

Record method : Type := Method
  { m_access : access;
    m_name : string;
    m_params : list param;
    m_returns : ty }.

(** Members of an ambient class.  [MErased] is what the declaration emitter
    leaves of a private member: the modifier and the name, with neither a
    type nor a parameter list, as in [private printLogs;]. *)
Inductive member : Type :=
| MProp (a : access) (p : prop)
| MCtor (ps : list param)
| MMethod (m : method)
| MErased (a : access) (name : string).

Record interface : Type := Interface
  { i_name : string;
    i_exported : bool;
    i_extends : list string;
    i_props : list prop }.

Record class : Type := Class
  { c_name : string;
    c_exported : bool;
    c_extends : option string;
    c_members : list member }.

Record import : Type := Import
  { im_names : list string;
    im_from : string }.

Record file : Type := File
  { f_imports : list import;
    f_interfaces : list interface;
    f_classes : list class }.

(** *** Builders that keep the transcription close to the source text *)

Definition req (name : string) (t : ty) : prop := Prop_ name false false t.
Definition opt (name : string) (t : ty) : prop := Prop_ name true false t.
Definition ro (name : string) (t : ty) : prop := Prop_ name false true t.

Definition arg (x : string) (t : ty) : param := Param (Named x) false t.
Definition arg_opt (x : string) (t : ty) : param := Param (Named x) true t.
Definition pattern (xs : list string) (t : ty) : param :=
  Param (Destructured xs) false t.

Definition BN : ty := TRef "BN".
Definition Uint8Array : ty := TRef "Uint8Array".
Definition Buffer : ty := TRef "Buffer".
Definition PublicKey : ty := TRef "PublicKey".
Definition AccessKeyView : ty := TRef "AccessKeyView".
Definition FinalExecutionOutcome : ty := TRef "FinalExecutionOutcome".
Definition BlockReference : ty := TRef "BlockReference".

(** *** lib/account.d.ts, lines 2-7 *)

Definition account_imports : list import :=
  [ Import ["BN"] "bn.js";
    Import ["Action"; "SignedTransaction"] "./transaction";
    Import ["FinalExecutionOutcome"] "./providers";
    Import ["AccountView"; "AccessKeyView"; "AccessKeyInfoView"; "BlockReference"]
           "./providers/provider";
    Import ["Connection"] "./connection";
    Import ["PublicKey"] "./utils/key_pair" ].

(** *** lines 8-88 *)

Definition AccountBalance : interface :=
  Interface "AccountBalance" true []
    [ req "total" TString;
      req "stateStaked" TString;
      req "staked" TString;
      req "available" TString ].

Definition AccountAuthorizedApp : interface :=
  Interface "AccountAuthorizedApp" true []
    [ req "contractId" TString;
      req "amount" TString;
      req "publicKey" TString ].

Definition SignAndSendTransactionOptions : interface :=
  Interface "SignAndSendTransactionOptions" true []
    [ req "receiverId" TString;
      req "actions" (TArray (TRef "Action"));
      opt "walletMeta" TString;
      opt "walletCallbackUrl" TString;
      opt "returnError" TBoolean ].

Definition FunctionCallOptions : interface :=
  Interface "FunctionCallOptions" true []
    [ req "contractId" TString;
      req "methodName" TString;
      opt "args" TObject;
      opt "gas" BN;
      opt "attachedDeposit" BN;
      opt "stringify" (TFun [("input", TAny)] Buffer);
      opt "jsContract" TBoolean ].

Definition ChangeFunctionCallOptions : interface :=
  Interface "ChangeFunctionCallOptions" true ["FunctionCallOptions"]
    [ opt "walletMeta" TString;
      opt "walletCallbackUrl" TString ].

Definition ViewFunctionCallOptions : interface :=
  Interface "ViewFunctionCallOptions" true ["FunctionCallOptions"]
    [ opt "parse" (TFun [("response", Uint8Array)] TAny);
      opt "blockQuery" BlockReference ].

Definition StakedBalance : interface :=
  Interface "StakedBalance" false []
    [ req "validatorId" TString;
      opt "amount" TString;
      opt "error" TString ].

Definition ActiveDelegatedStakeBalance : interface :=
  Interface "ActiveDelegatedStakeBalance" false []
    [ req "stakedValidators" (TArray (TRef "StakedBalance"));
      req "failedValidators" (TArray (TRef "StakedBalance"));
      req "total" (TUnion BN TString) ].

(** *** lines 96-244 *)

Definition key : ty := TUnion TString PublicKey.

Definition Account : class :=
  Class "Account" true None
    [ MProp Public (ro "connection" (TRef "Connection"));
      MProp Public (ro "accountId" TString);
      MCtor [ arg "connection" (TRef "Connection"); arg "accountId" TString ];
      MMethod (Method Public "state" [] (TPromise (TRef "AccountView")));
      MErased Private "printLogsAndFailures";
      MErased Private "printLogs";
      MMethod (Method Protected "signTransaction"
                 [ arg "receiverId" TString; arg "actions" (TArray (TRef "Action")) ]
                 (TPromise (TTuple [Uint8Array; TRef "SignedTransaction"])));
      MMethod (Method Public "signAndSendTransaction"
                 [ pattern ["receiverId"; "actions"; "returnError"]
                           (TRef "SignAndSendTransactionOptions") ]
                 (TPromise FinalExecutionOutcome));
      MProp Public (req "accessKeyByPublicKeyCache" (TIndex TString AccessKeyView));
      MMethod (Method Public "findAccessKey"
                 [ arg "receiverId" TString; arg "actions" (TArray (TRef "Action")) ]
                 (TPromise (TLit [("publicKey", PublicKey); ("accessKey", AccessKeyView)])));
      MMethod (Method Public "createAndDeployContract"
                 [ arg "contractId" TString; arg "publicKey" key;
                   arg "data" Uint8Array; arg "amount" BN ]
                 (TPromise (TRef "Account")));
      MMethod (Method Public "sendMoney"
                 [ arg "receiverId" TString; arg "amount" BN ]
                 (TPromise FinalExecutionOutcome));
      MMethod (Method Public "createAccount"
                 [ arg "newAccountId" TString; arg "publicKey" key; arg "amount" BN ]
                 (TPromise FinalExecutionOutcome));
      MMethod (Method Public "deleteAccount"
                 [ arg "beneficiaryId" TString ]
                 (TPromise FinalExecutionOutcome));
      MMethod (Method Public "deployContract"
                 [ arg "data" Uint8Array ]
                 (TPromise FinalExecutionOutcome));
      MErased Private "encodeJSContractArgs";
      MMethod (Method Public "functionCall"
                 [ pattern ["contractId"; "methodName"; "args"; "gas";
                            "attachedDeposit"; "walletMeta"; "walletCallbackUrl";
                            "stringify"; "jsContract"]
                           (TRef "ChangeFunctionCallOptions") ]
                 (TPromise FinalExecutionOutcome));
      MMethod (Method Public "addKey"
                 [ arg "publicKey" key;
                   arg_opt "contractId" TString;
                   arg_opt "methodNames" (TUnion TString (TArray TString));
                   arg_opt "amount" BN ]
                 (TPromise FinalExecutionOutcome));
      MMethod (Method Public "deleteKey"
                 [ arg "publicKey" key ]
                 (TPromise FinalExecutionOutcome));
      MMethod (Method Public "stake"
                 [ arg "publicKey" key; arg "amount" BN ]
                 (TPromise FinalExecutionOutcome));
      MErased Private "validateArgs";
      MMethod (Method Public "viewFunction"
                 [ pattern ["contractId"; "methodName"; "args"; "parse";
                            "stringify"; "jsContract"; "blockQuery"]
                           (TRef "ViewFunctionCallOptions") ]
                 (TPromise TAny));
      MMethod (Method Public "viewState"
                 [ arg "prefix" (TUnion TString Uint8Array);
                   arg_opt "blockQuery" BlockReference ]
                 (TPromise (TArray (TLit [("key", Buffer); ("value", Buffer)]))));
      MMethod (Method Public "getAccessKeys" []
                 (TPromise (TArray (TRef "AccessKeyInfoView"))));
      MMethod (Method Public "getAccountDetails" []
                 (TPromise (TLit [("authorizedApps",
                                   TArray (TRef "AccountAuthorizedApp"))])));
      MMethod (Method Public "getAccountBalance" []
                 (TPromise (TRef "AccountBalance")));
      MMethod (Method Public "getActiveDelegatedStakeBalance" []
                 (TPromise (TRef "ActiveDelegatedStakeBalance"))) ].

Definition account_d_ts : file :=
  File account_imports
       [ AccountBalance; AccountAuthorizedApp; SignAndSendTransactionOptions;
         FunctionCallOptions; ChangeFunctionCallOptions; ViewFunctionCallOptions;
         StakedBalance; ActiveDelegatedStakeBalance ]
       [ Account ].

(** *** Reading the table *)

Definition methods (c : class) : list method :=
  flat_map (fun d => match d with MMethod m => [m] | _ => [] end) (c_members c).

Definition typed_props (c : class) : list prop :=
  flat_map (fun d => match d with MProp _ p => [p] | _ => [] end) (c_members c).

Definition erased_members (c : class) : list string :=
  flat_map (fun d => match d with MErased _ x => [x] | _ => [] end) (c_members c).

Definition constructors (c : class) : list (list param) :=
  flat_map (fun d => match d with MCtor ps => [ps] | _ => [] end) (c_members c).

Definition method_names (c : class) : list string := map m_name (methods c).

Definition find_method (c : class) (x : string) : option method :=
  List.find (fun m => String.eqb (m_name m) x) (methods c).

Definition find_prop (ps : list prop) (x : string) : option prop :=
  List.find (fun p => String.eqb (p_name p) x) ps.

Definition returns (c : class) (x : string) : option ty :=
  option_map m_returns (find_method c x).

(** What a [Promise<T>] resolves to; [None] for a type that is no promise. *)
Definition resolves_to (t : ty) : option ty :=
  match t with
  | TPromise r => Some r
  | _ => None
  end.

Definition is_promise (t : ty) : bool :=
  match resolves_to t with Some _ => true | None => false end.

Definition is_ref (x : string) (t : ty) : bool :=
  match t with
  | TRef y => String.eqb x y
  | _ => false
  end.

Definition resolves_to_ref (x : string) (t : ty) : bool :=
  match resolves_to t with Some r => is_ref x r | None => false end.

(** Named types an expression refers to.  The built-in generics [Promise]
    and [Array] are constructors of [ty] and are not listed; see
    [Surface.ty_names] for the names with them. *)
Fixpoint ty_refs (t : ty) : list string :=
  match t with
  | TString | TBoolean | TAny | TObject => []
  | TRef x => [x]
  | TArray e => ty_refs e
  | TPromise r => ty_refs r
  | TUnion l r => ty_refs l ++ ty_refs r
  | TTuple ts => flat_map ty_refs ts
  | TFun ps r => flat_map (fun p => ty_refs (snd p)) ps ++ ty_refs r
  | TLit ps => flat_map (fun p => ty_refs (snd p)) ps
  | TIndex k v => ty_refs k ++ ty_refs v
  end.

(** Parameter and property names written inside an expression. *)
Fixpoint ty_labels (t : ty) : list string :=
  match t with
  | TString | TBoolean | TAny | TObject | TRef _ => []
  | TArray e => ty_labels e
  | TPromise r => ty_labels r
  | TUnion l r => ty_labels l ++ ty_labels r
  | TTuple ts => flat_map ty_labels ts
  | TFun ps r => flat_map (fun p => fst p :: ty_labels (snd p)) ps ++ ty_labels r
  | TLit ps => flat_map (fun p => fst p :: ty_labels (snd p)) ps
  | TIndex k v => ty_labels k ++ ty_labels v
  end.

Definition find_interface (f : file) (x : string) : option interface :=
  List.find (fun i => String.eqb (i_name i) x) (f_interfaces f).

Definition declared_names (f : file) : list string :=
  map i_name (f_interfaces f) ++ map c_name (f_classes f).

Definition imported_names (f : file) : list string :=
  flat_map im_names (f_imports f).

Definition imported_from (f : file) (x : string) : option string :=
  option_map im_from (List.find (fun i => mem_string x (im_names i)) (f_imports f)).

(** The properties of interface [x], inherited ones first.  [fuel] bounds
    the walk up the [extends] clauses. *)
Fixpoint all_props (fuel : nat) (f : file) (x : string) : list prop :=
  match fuel with
  | O => []
  | S k =>
      match find_interface f x with
      | None => []
      | Some i => flat_map (all_props k f) (i_extends i) ++ i_props i
      end
  end.

Definition binding_names (b : binding) : list string :=
  match b with
  | Named x => [x]
  | Destructured xs => xs
  end.

Definition prop_vocabulary (p : prop) : list string :=
  p_name p :: ty_refs (p_type p) ++ ty_labels (p_type p).

(** Every name a caller meets when passing parameter [p]: what it binds, the
    types it mentions, and the properties of the option interfaces among
    them. *)
Definition param_vocabulary (f : file) (p : param) : list string :=
  binding_names (b_binding p)
  ++ ty_refs (b_type p) ++ ty_labels (b_type p)
  ++ flat_map (fun x => flat_map prop_vocabulary
                          (all_props (length (f_interfaces f)) f x))
              (ty_refs (b_type p)).

(** Words by which a cancellation handle or a coordination primitive would
    be recognised in a signature. *)
Definition coordination_words : list string :=
  [ "signal"; "Signal"; "cancel"; "Cancel"; "abort"; "Abort";
    "timeout"; "Timeout"; "mutex"; "Mutex"; "semaphore"; "Semaphore" ].

Definition coordinates (w : string) : bool :=
  existsb (fun k => contains k w) coordination_words.

Definition coordination_free (f : file) (m : method) : bool :=
  forallb (fun p => negb (existsb coordinates (param_vocabulary f p))) (m_params m).

(** Words by which an error case or an error switch is recognised. *)
Definition error_words : list string := [ "error"; "Error"; "fail"; "Fail" ].

Definition mentions_error (w : string) : bool :=
  existsb (fun k => contains k w) error_words.

(** The (interface, property) pairs whose name speaks of errors. *)
Definition error_members (f : file) : list (string * prop) :=
  flat_map (fun i => map (pair (i_name i))
                         (List.filter (fun p => mentions_error (p_name p)) (i_props i)))
           (f_interfaces f).

(** Every type name the file declares, imports or mentions in a class. *)
Definition class_vocabulary (c : class) : list string :=
  flat_map (fun m => ty_refs (m_returns m)
                     ++ flat_map (fun p => ty_refs (b_type p)) (m_params m))
           (methods c)
  ++ flat_map (fun p => ty_refs (p_type p)) (typed_props c).

Definition type_names (f : file) : list string :=
  declared_names f ++ imported_names f
  ++ flat_map i_extends (f_interfaces f)
  ++ flat_map (fun c => match c_extends c with Some x => [x] | None => [] end)
              (f_classes f)
  ++ flat_map class_vocabulary (f_classes f).

(** [nests f t]: a value of type [t] contains other containers: an array,
    tuple, object or function, or a record or class declared in [f]. *)
Fixpoint nests (f : file) (t : ty) : bool :=
  match t with
  | TString | TBoolean | TAny => false
  | TObject => true
  | TRef x => mem_string x (declared_names f)
  | TArray _ | TTuple _ | TFun _ _ | TLit _ | TIndex _ _ => true
  | TPromise r => nests f r
  | TUnion l r => nests f l || nests f r
  end.

Definition nested_props (f : file) (i : interface) : list prop :=
  List.filter (fun p => nests f (p_type p)) (i_props i).

Definition flat (f : file) (i : interface) : bool :=
  match nested_props f i with [] => true | _ => false end.

(** A plain field container: no base interface, no read-only property and
    no function-valued property. *)
Definition plain_container (i : interface) : bool :=
  match i_extends i with [] => true | _ => false end
  && forallb (fun p => negb (p_readonly p)
                       && match p_type p with TFun _ _ => false | _ => true end)
             (i_props i).

Definition readonly_in (c : class) (x : string) : bool :=
  existsb (fun p => String.eqb (p_name p) x && p_readonly p) (typed_props c).

End Decl.

(** The five families of remote procedures the purpose statement lists,
    each with the methods that are to cover it. *)
Definition families : list (string * list string) :=
  [ ("view account state", ["state"]);
    ("sign and submit transactions", ["signTransaction"; "signAndSendTransaction"]);
    ("manage access keys", ["findAccessKey"; "addKey"; "deleteKey"; "getAccessKeys"]);
    ("stake", ["stake"]);
    ("query balances", ["getAccountBalance"; "getActiveDelegatedStakeBalance"]) ].

(** The operations that submit a transaction, [createAndDeployContract]
    apart. *)
Definition outcome_operations : list string :=
  [ "signAndSendTransaction"; "sendMoney"; "createAccount"; "deleteAccount";
    "deployContract"; "functionCall"; "addKey"; "deleteKey"; "stake" ].

(** The four records named in the data model. *)
Definition data_model : list Decl.interface :=
  [ Decl.AccountBalance; Decl.AccountAuthorizedApp;
    Decl.StakedBalance; Decl.ActiveDelegatedStakeBalance ].

(** The reading of "no type declared in this file encodes an error case or
    error-handling configuration": no property of a declared interface
    speaks of errors. *)
Definition no_error_encoding (f : Decl.file) : Prop :=
  forall i p,
    In i (Decl.f_interfaces f) -> In p (Decl.i_props i) ->
    Decl.mentions_error (Decl.p_name p) = false.

(** A primitive type: a value of it has no parts and is no object. *)
Definition primitive (t : Decl.ty) : bool :=
  match t with
  | Decl.TString | Decl.TBoolean => true
  | _ => false
  end.

(** The records and classes of the file that the properties of an interface
    hold, alone or in containers: what the interface owns. *)
Definition held_records (f : Decl.file) (i : Decl.interface) : list string :=
  List.filter (fun x => mem_string x (Decl.declared_names f))
              (flat_map (fun p => Decl.ty_refs (Decl.p_type p)) (Decl.i_props i)).

(** The reading of "flat value record": nothing nested inside, a plain
    field container, and every field of a primitive type. *)
Definition flat_value_record (f : Decl.file) (i : Decl.interface) : Prop :=
  Decl.flat f i = true /\ Decl.plain_container i = true
  /\ Forall (fun p => primitive (Decl.p_type p) = true) (Decl.i_props i).

(** ** Values and instances *)

Module Values.

(** The declared records.  [BN] is an arbitrary-precision integer. *)
Record AccountBalance : Type := mkAccountBalance
  { total : string;
    stateStaked : string;
    staked : string;
    available : string }.

Record AccountAuthorizedApp : Type := mkAccountAuthorizedApp
  { contractId : string;
    amount : string;
    publicKey : string }.

Record StakedBalance : Type := mkStakedBalance
  { validatorId : string;
    staked_amount : option string;      (* amount?: string *)
    error : option string }.            (* error?: string *)

Record ActiveDelegatedStakeBalance : Type := mkActiveDelegatedStakeBalance
  { stakedValidators : list StakedBalance;
    failedValidators : list StakedBalance;
    delegated_total : Z + string }.     (* total: BN | string *)

(** The instance state of the class: its three typed properties.
    [Connection] and [AccessKeyView] are imported by the file and stay
    abstract; the index signature [{ [key: string]: AccessKeyView }] is a
    finite map from strings. *)
Record Account (Connection AccessKeyView : Type) : Type := mkAccount
  { connection : Connection;
    accountId : string;
    accessKeyByPublicKeyCache : gmap string AccessKeyView }.

Arguments mkAccount {Connection AccessKeyView} _ _ _.
Arguments connection {Connection AccessKeyView} _.
Arguments accountId {Connection AccessKeyView} _.
Arguments accessKeyByPublicKeyCache {Connection AccessKeyView} _.

(** A promise settles: it resolves to a value or rejects with whatever was
    raised. *)
Inductive settled (E A : Type) : Type :=
| Resolved (a : A)
| Rejected (e : E).

Arguments Resolved {E A} a.
Arguments Rejected {E A} e.

Section Instance.
Context {Connection AccessKeyView : Type}.

Abbreviation Account := (Account Connection AccessKeyView).

(** Modelled from the spec: the bodies of the operations (lib/account.js)
    are not among the sources.  What a body can do to the instance it runs
    on is a sequence of writes: an assignment to one of the three
    properties, or an update of an entry of the cache object, the "simple
    cache keyed by public key" which is the only shared mutable state the
    spec allows.  [exec] is what the write does when it runs: JavaScript
    performs any of them, [readonly] exists only for the type checker. *)
Inductive write : Type :=
| SetConnection (c : Connection)                  (* this.connection = c *)
| SetAccountId (a : string)                       (* this.accountId = a *)
| SetCache (m : gmap string AccessKeyView)        (* this.accessKeyByPublicKeyCache = m *)
| PutCache (k : string) (v : AccessKeyView)       (* this.accessKeyByPublicKeyCache[k] = v *)
| DropCache (k : string).                         (* delete this.accessKeyByPublicKeyCache[k] *)

(** The property a write goes through. *)
Definition target (w : write) : string :=
  match w with
  | SetConnection _ => "connection"
  | SetAccountId _ => "accountId"
  | SetCache _ | PutCache _ _ | DropCache _ => "accessKeyByPublicKeyCache"
  end.

Definition exec (w : write) (this : Account) : Account :=
  match w with
  | SetConnection c =>
      mkAccount c (accountId this) (accessKeyByPublicKeyCache this)
  | SetAccountId a =>
      mkAccount (connection this) a (accessKeyByPublicKeyCache this)
  | SetCache m =>
      mkAccount (connection this) (accountId this) m
  | PutCache k v =>
      mkAccount (connection this) (accountId this)
                (<[k := v]> (accessKeyByPublicKeyCache this))
  | DropCache k =>
      mkAccount (connection this) (accountId this)
                (delete k (accessKeyByPublicKeyCache this))
  end.

Definition run (ws : list write) (this : Account) : Account :=
  fold_left (fun acc w => exec w acc) ws this.

(** The check the declaration imposes on a method body: no write through
    a property the class declares [readonly]. *)
Definition permitted (w : write) : bool :=
  negb (Decl.readonly_in Decl.Account (target w)).

Section FindAccessKey.
Context {PublicKey Action Failure : Type}.

(** The collaborators reached through the connection: the key store
    lookup of the signer, the printed form of a key, and the provider's
    access-key query.  Two calls made against the same remote state see
    the same functions. *)
Variable signer_public_key : Connection -> string -> settled Failure PublicKey.
Variable key_to_string : PublicKey -> string.
Variable view_access_key :
  Connection -> string -> string -> settled Failure AccessKeyView.

(** Modelled from the spec: the body of [findAccessKey]
    (lib/account.js) is not among the sources.  From the declaration's
    documentation it "finds the AccessKeyView associated with the
    accounts PublicKey stored in the KeyStore", with [receiverId] and
    [actions] "currently unused"; from the spec it passes through to the
    provider, keeps "a simple cache keyed by public key", and its
    failures "are whatever the underlying RPC transport raises".  The
    result is the new instance state and the settled promise. *)
Definition findAccessKey (this : Account)
    (receiverId : string) (actions : list Action)
  : Account * settled Failure (PublicKey * AccessKeyView) :=
  match signer_public_key (connection this) (accountId this) with
  | Rejected e => (this, Rejected e)
  | Resolved pk =>
      let k := key_to_string pk in
      match accessKeyByPublicKeyCache this !! k with
      | Some v => (this, Resolved (pk, v))
      | None =>
          match view_access_key (connection this) (accountId this) k with
          | Rejected e => (this, Rejected e)
          | Resolved v => (exec (PutCache k v) this, Resolved (pk, v))
          end
      end
  end.
End FindAccessKey.
End Instance.

Section Operations.
Context {Connection AccessKeyView Request Response Failure : Type}.

Abbreviation Account := (Account Connection AccessKeyView).

(** An update of the cache: one entry, keyed by the printed public key. *)
Inductive cache_update : Type :=
| Store (k : string) (v : AccessKeyView)
| Forget (k : string).

Definition as_write (u : cache_update) : @write Connection AccessKeyView :=
  match u with
  | Store k v => PutCache k v
  | Forget k => DropCache k
  end.

(** Modelled from the spec: the bodies of the nineteen operations
    (lib/account.js) are not among the sources.  The spec has every
    operation "a thin pass-through to a JSON-RPC provider, with light local
    bookkeeping (an access-key cache, arithmetic on returned balances)",
    doing nothing "beyond delegating to an external RPC call and reshaping
    its response", with no "shared mutable state (beyond a simple cache
    keyed by public key)".  A body is therefore a script: remote calls, each
    continued with the response, then a result computed from the responses
    together with the cache entries to store or forget. *)
Inductive script (Result : Type) : Type :=
| Return (result : Result) (bookkeeping : list cache_update)
| Call (request : Request) (continue : Response -> script Result).

Arguments Return {Result} result bookkeeping.
Arguments Call {Result} request continue.

(** Modelled from the spec: how a body runs against the transport reached
    through the connection.  "Errors are whatever the underlying RPC
    transport raises": a rejected call rejects the operation with the same
    failure, and the bookkeeping of a body that did not finish is not
    done. *)
Fixpoint perform {Result : Type}
    (transport : Connection -> Request -> settled Failure Response)
    (s : script Result) (this : Account)
  : Account * settled Failure Result :=
  match s with
  | Return r updates => (run (map as_write updates) this, Resolved r)
  | Call request continue =>
      match transport (connection this) request with
      | Rejected e => (this, Rejected e)
      | Resolved response => perform transport (continue response) this
      end
  end.

(** The requests a body sends before it settles, in order. *)
Fixpoint requests {Result : Type}
    (transport : Connection -> Request -> settled Failure Response)
    (s : script Result) (this : Account) : list Request :=
  match s with
  | Return _ _ => []
  | Call request continue =>
      request ::
      match transport (connection this) request with
      | Rejected _ => []
      | Resolved response => requests transport (continue response) this
      end
  end.

(** Modelled from the spec: an operation is named by its method and runs
    the body that the method has for its arguments and the instance. *)
Definition invoke {Args Result : Type}
    (transport : Connection -> Request -> settled Failure Response)
    (body : string -> Args -> Account -> script Result)
    (operation : string) (args : Args) (this : Account)
  : Account * settled Failure Result :=
  perform transport (body operation args this) this.

End Operations.

Arguments Return {AccessKeyView Request Response Result} result bookkeeping.
Arguments Call {AccessKeyView Request Response Result} request continue.

End Values.

(** ** Values of the declared types *)

Module Conformance.
Import Decl.

(** Values as the language has them, as far as the declared types tell
    them apart.  An object of a class the file does not declare (a [BN], a
    [Buffer], ...) is known by its class only. *)
#[warnings="-register-all"]
Inductive value : Type :=
| VString (s : string)
| VBoolean (b : bool)
| VInstance (class_name : string)
| VFunction
| VArray (items : list value)
| VObject (fields : list (string * value)).

(** Property lookup: the first entry of that name. *)
Fixpoint field (x : string) (o : list (string * value)) : option value :=
  match o with
  | [] => None
  | (y, v) :: rest => if String.eqb x y then Some v else field x rest
  end.

Fixpoint all2 {A B : Type} (p : A -> B -> bool) (xs : list A) (ys : list B) : bool :=
  match xs, ys with
  | [], [] => true
  | x :: xs', y :: ys' => p x y && all2 p xs' ys'
  | _, _ => false
  end.

(** [has_type f n v t]: value [v] is assignable to type [t], structurally,
    with the interfaces of [f]; [n] bounds the depth looked into.  A
    declared interface asks for its properties and those of its bases, an
    optional one only if present; any other named type asks for an object
    of that class. *)
Fixpoint has_type (f : file) (n : nat) (v : value) (t : ty) : bool :=
  match n with
  | O => false
  | S k =>
      match t with
      | TString => match v with VString _ => true | _ => false end
      | TBoolean => match v with VBoolean _ => true | _ => false end
      | TAny => true
      | TObject => match v with VString _ | VBoolean _ => false | _ => true end
      | TRef x =>
          match find_interface f x with
          | Some _ =>
              match v with
              | VObject o =>
                  forallb (fun p => match field (p_name p) o with
                                    | Some w => has_type f k w (p_type p)
                                    | None => p_optional p
                                    end)
                          (all_props (length (f_interfaces f)) f x)
              | _ => false
              end
          | None =>
              match v with
              | VInstance c => String.eqb c x
              | _ => false
              end
          end
      | TArray e =>
          match v with
          | VArray items => forallb (fun w => has_type f k w e) items
          | _ => false
          end
      | TPromise _ => false
      | TUnion l r => has_type f k v l || has_type f k v r
      | TTuple ts =>
          match v with
          | VArray items => all2 (has_type f k) items ts
          | _ => false
          end
      | TFun _ _ => match v with VFunction => true | _ => false end
      | TLit ps =>
          match v with
          | VObject o =>
              forallb (fun p => match field (fst p) o with
                                | Some w => has_type f k w (snd p)
                                | None => false
                                end) ps
          | _ => false
          end
      | TIndex _ e =>
          match v with
          | VObject o => forallb (fun p => has_type f k (snd p) e) o
          | _ => false
          end
      end
  end.

(** Recombination: each property taken from [o1] or from [o2], as [pick]
    says. *)
Definition mix (pick : string -> bool) (o1 o2 : list (string * value))
  : list (string * value) :=
  List.filter (fun e => pick (fst e)) o1
  ++ List.filter (fun e => negb (pick (fst e))) o2.

(** The declared records of [Values] as objects. *)
Definition present (x : string) (s : option string) : list (string * value) :=
  match s with
  | Some a => [(x, VString a)]
  | None => []
  end.

Definition of_AccountBalance (r : Values.AccountBalance) : value :=
  VObject [ ("total", VString (Values.total r));
            ("stateStaked", VString (Values.stateStaked r));
            ("staked", VString (Values.staked r));
            ("available", VString (Values.available r)) ].

Definition of_AccountAuthorizedApp (r : Values.AccountAuthorizedApp) : value :=
  VObject [ ("contractId", VString (Values.contractId r));
            ("amount", VString (Values.amount r));
            ("publicKey", VString (Values.publicKey r)) ].

Definition of_StakedBalance (r : Values.StakedBalance) : value :=
  VObject (("validatorId", VString (Values.validatorId r))
           :: present "amount" (Values.staked_amount r)
           ++ present "error" (Values.error r)).

Definition of_ActiveDelegatedStakeBalance
    (r : Values.ActiveDelegatedStakeBalance) : value :=
  VObject [ ("stakedValidators",
             VArray (map of_StakedBalance (Values.stakedValidators r)));
            ("failedValidators",
             VArray (map of_StakedBalance (Values.failedValidators r)));
            ("total", match Values.delegated_total r with
                      | inl _ => VInstance "BN"
                      | inr s => VString s
                      end) ].

End Conformance.

(** ** Checks on the declared surface *)

Module Surface.
Import Decl.

(** Types that need no import: [Buffer] comes with the node typings
    referenced on line 1; [Uint8Array], [Promise] and [Array] with the
    language's own library. *)
Definition ambient : list string := ["Uint8Array"; "Buffer"; "Promise"; "Array"].

(** Every type name an expression writes: the named types, and the two
    built-in generics where they stand, [Promise] at a [Promise<T>] and
    [Array] at an [Array<T>] or its short form [T[]]. *)
Fixpoint ty_names (t : ty) : list string :=
  match t with
  | TString | TBoolean | TAny | TObject => []
  | TRef x => [x]
  | TArray e => "Array" :: ty_names e
  | TPromise r => "Promise" :: ty_names r
  | TUnion l r => ty_names l ++ ty_names r
  | TTuple ts => flat_map ty_names ts
  | TFun ps r => flat_map (fun p => ty_names (snd p)) ps ++ ty_names r
  | TLit ps => flat_map (fun p => ty_names (snd p)) ps
  | TIndex k v => ty_names k ++ ty_names v
  end.

Definition member_type_names (d : member) : list string :=
  match d with
  | MProp _ p => ty_names (p_type p)
  | MCtor ps => flat_map (fun p => ty_names (b_type p)) ps
  | MMethod m =>
      flat_map (fun p => ty_names (b_type p)) (m_params m) ++ ty_names (m_returns m)
  | MErased _ _ => []
  end.

(** Every type name written anywhere in the file, built-in generics
    included. *)
Definition file_type_names (f : file) : list string :=
  flat_map (fun i => i_extends i
                     ++ flat_map (fun p => ty_names (p_type p)) (i_props i))
           (f_interfaces f)
  ++ flat_map (fun c => match c_extends c with Some x => [x] | None => [] end
                        ++ flat_map member_type_names (c_members c))
              (f_classes f).

Definition params_refs (ps : list param) : list string :=
  flat_map (fun p => ty_refs (b_type p)) ps.

Definition member_refs (d : member) : list string :=
  match d with
  | MProp _ p => ty_refs (p_type p)
  | MCtor ps => params_refs ps
  | MMethod m => params_refs (m_params m) ++ ty_refs (m_returns m)
  | MErased _ _ => []
  end.

Definition interface_refs (i : interface) : list string :=
  i_extends i ++ flat_map (fun p => ty_refs (p_type p)) (i_props i).

Definition class_refs (c : class) : list string :=
  match c_extends c with Some x => [x] | None => [] end
  ++ flat_map member_refs (c_members c).

(** Every named type written anywhere in the file. *)
Definition file_refs (f : file) : list string :=
  flat_map interface_refs (f_interfaces f) ++ flat_map class_refs (f_classes f).

(** *** Inheritance *)

(** Each base of an interface is an interface declared above it. *)
Fixpoint bases_precede (seen : list string) (decls : list interface) : bool :=
  match decls with
  | [] => true
  | i :: rest =>
      forallb (fun b => mem_string b seen) (i_extends i)
      && bases_precede (i_name i :: seen) rest
  end.

(** The properties of an interface with those of its bases. *)
Definition props_of (f : file) (x : string) : list prop :=
  all_props (length (f_interfaces f)) f x.

Definition required (ps : list prop) : list string :=
  map p_name (List.filter (fun p => negb (p_optional p)) ps).

(** *** Destructured parameters *)

(** The properties a parameter's type offers. *)
Definition offered (f : file) (p : param) : list string :=
  map p_name (flat_map (props_of f) (ty_refs (b_type p))).

(** Names a pattern binds that its type does not offer, and properties the
    type offers that the pattern does not bind. *)
Definition stray (f : file) (p : param) : list string :=
  match b_binding p with
  | Destructured xs => List.filter (fun x => negb (mem_string x (offered f p))) xs
  | Named _ => []
  end.

Definition unbound (f : file) (p : param) : list string :=
  match b_binding p with
  | Destructured xs => List.filter (fun x => negb (mem_string x xs)) (offered f p)
  | Named _ => []
  end.

(** *** Arity *)

Definition min_arity (ps : list param) : nat :=
  length (List.filter (fun p => negb (b_optional p)) ps).

(** Once a parameter is optional, all that follow are. *)
Fixpoint required_first (ps : list param) : bool :=
  match ps with
  | [] => true
  | p :: rest =>
      if b_optional p then forallb b_optional rest else required_first rest
  end.

(** *** Members *)

Definition member_access (d : member) : access :=
  match d with
  | MProp a _ => a
  | MCtor _ => Public
  | MMethod m => m_access m
  | MErased a _ => a
  end.

Definition member_name (d : member) : string :=
  match d with
  | MProp _ p => p_name p
  | MCtor _ => "constructor"
  | MMethod m => m_name m
  | MErased _ x => x
  end.

Definition is_public (d : member) : bool :=
  match member_access d with Public => true | _ => false end.

(** The named parameters of the constructor and the methods, with their
    types. *)
Definition named_params (c : class) : list (string * ty) :=
  flat_map
    (flat_map (fun p => match b_binding p with
                        | Named x => [(x, b_type p)]
                        | Destructured _ => []
                        end))
    (constructors c ++ map m_params (methods c)).

(** The first type recorded for a name. *)
Fixpoint assoc (x : string) (l : list (string * ty)) : option ty :=
  match l with
  | [] => None
  | (y, t) :: rest => if String.eqb x y then Some t else assoc x rest
  end.

(** *** Reachability *)

(** One round of following the interfaces named in [xs]. *)
Definition follow (f : file) (xs : list string) : list string :=
  xs ++ flat_map (fun x => match find_interface f x with
                           | Some i => interface_refs i
                           | None => []
                           end) xs.

Fixpoint reach (n : nat) (f : file) (xs : list string) : list string :=
  match n with
  | O => xs
  | S k => reach k f (follow f xs)
  end.

(** The types a user of the class meets: those its public members mention,
    and the ones reached from them through declared interfaces. *)
Definition public_surface (f : file) (c : class) : list string :=
  reach (length (f_interfaces f)) f
        (flat_map member_refs (List.filter is_public (c_members c))).

(** [mentions f roots x]: the type named [x] is written in [roots] or in an
    interface of [f] that is itself mentioned. *)
Inductive mentions (f : file) (roots : list string) : string -> Prop :=
| mentions_root x : In x roots -> mentions f roots x
| mentions_step x i y :
    mentions f roots x ->
    find_interface f x = Some i ->
    In y (interface_refs i) ->
    mentions f roots y.

Definition public_roots (c : class) : list string :=
  flat_map member_refs (List.filter is_public (c_members c)).

(** *** Promises and [any] *)

(** No promise inside the type. *)
Fixpoint promise_free (t : ty) : bool :=
  match t with
  | TString | TBoolean | TAny | TObject | TRef _ => true
  | TPromise _ => false
  | TArray e => promise_free e
  | TUnion l r => promise_free l && promise_free r
  | TTuple ts => forallb promise_free ts
  | TFun ps r => forallb (fun p => promise_free (snd p)) ps && promise_free r
  | TLit ps => forallb (fun p => promise_free (snd p)) ps
  | TIndex k v => promise_free k && promise_free v
  end.

(** The unchecked type [any] occurs in the type. *)
Fixpoint has_any (t : ty) : bool :=
  match t with
  | TAny => true
  | TString | TBoolean | TObject | TRef _ => false
  | TPromise r => has_any r
  | TArray e => has_any e
  | TUnion l r => has_any l || has_any r
  | TTuple ts => existsb has_any ts
  | TFun ps r => existsb (fun p => has_any (snd p)) ps || has_any r
  | TLit ps => existsb (fun p => has_any (snd p)) ps
  | TIndex k v => has_any k || has_any v
  end.

End Surface.

(** ** What the file declares *)

Section Declarations.
Import Decl.

(** Membership in a list written out in the table is settled by walking
    it. *)
Ltac each_member H :=
  simpl in H;
  repeat match type of H with
         | _ \/ _ => destruct H as [H | H]
         | False => destruct H
         end;
  subst.

Lemma methods_of_Account :
  method_names Account =
  [ "state"; "signTransaction"; "signAndSendTransaction"; "findAccessKey";
    "createAndDeployContract"; "sendMoney"; "createAccount"; "deleteAccount";
    "deployContract"; "functionCall"; "addKey"; "deleteKey"; "stake";
    "viewFunction"; "viewState"; "getAccessKeys"; "getAccountDetails";
    "getAccountBalance"; "getActiveDelegatedStakeBalance" ].
Proof. reflexivity. Qed.

Lemma every_method_returns_a_promise m :
  In m (methods Account) -> exists r, m_returns m = TPromise r.
Proof. intros H. each_member H; eexists; reflexivity. Qed.

Lemma every_method_is_coordination_free m :
  In m (methods Account) -> coordination_free account_d_ts m = true.
Proof. intros H. each_member H; reflexivity. Qed.

(** The recogniser does fire on the names it is meant for, and the walk does
    reach the properties of an option interface, inherited ones included. *)
Example coordinates_fires :
  coordinates "abortSignal" = true /\ coordinates "timeoutMs" = true
  /\ coordinates "blockQuery" = false.
Proof. repeat split. Qed.

Example vocabulary_reaches_inherited_props :
  In "stringify"
     (param_vocabulary account_d_ts
        (pattern ["contractId"] (TRef "ChangeFunctionCallOptions"))).
Proof. vm_compute. tauto. Qed.

(** C2. Every method declared on [Account] (nineteen of them) declares a
    [Promise] as its result type, and no parameter of any of them, down to
    the properties of its option interfaces, is a cancellation handle or a
    coordination primitive. *)
Theorem methods_are_single_shot_promises :
  method_names Account =
  [ "state"; "signTransaction"; "signAndSendTransaction"; "findAccessKey";
    "createAndDeployContract"; "sendMoney"; "createAccount"; "deleteAccount";
    "deployContract"; "functionCall"; "addKey"; "deleteKey"; "stake";
    "viewFunction"; "viewState"; "getAccessKeys"; "getAccountDetails";
    "getAccountBalance"; "getActiveDelegatedStakeBalance" ]
  /\ Forall (fun m => exists r, m_returns m = TPromise r) (methods Account)
  /\ Forall (fun m => coordination_free account_d_ts m = true) (methods Account).
Proof.
  split; [exact methods_of_Account |].
  split; apply Forall_forall; intros m Hm.
  - apply every_method_returns_a_promise. by apply list_elem_of_In.
  - apply every_method_is_coordination_free. by apply list_elem_of_In.
Qed.

(** C6. The file declares one class, [Account]; it has nineteen method
    signatures, each resolving a promise (twenty-three members when the four
    erased private ones are counted); its constructor takes the connection
    as its first parameter, typed by [Connection], which the file imports
    from ./connection and does not declare. *)
Theorem one_class_over_a_supplied_connection :
  f_classes account_d_ts = [Account]
  /\ c_name Account = "Account"
  /\ length (methods Account) = 19
  /\ length (methods Account) + length (erased_members Account) = 23
  /\ Forall (fun m => is_promise (m_returns m) = true) (methods Account)
  /\ constructors Account =
     [[ arg "connection" (TRef "Connection"); arg "accountId" TString ]]
  /\ find_prop (typed_props Account) "connection"
     = Some (ro "connection" (TRef "Connection"))
  /\ imported_from account_d_ts "Connection" = Some "./connection"
  /\ mem_string "Connection" (declared_names account_d_ts) = false.
Proof.
  repeat split.
  apply Forall_forall. intros m Hm. apply list_elem_of_In in Hm.
  destruct (every_method_returns_a_promise m Hm) as [r Hr].
  unfold is_promise. by rewrite Hr.
Qed.

(** C7. Each of the five advertised families is covered: every method
    listed under a family is a method signature of [Account]. *)
Theorem families_are_declared :
  map fst families =
  [ "view account state"; "sign and submit transactions";
    "manage access keys"; "stake"; "query balances" ]
  /\ Forall (fun fam =>
       snd fam <> []
       /\ Forall (fun x => exists m,
                    find_method Account x = Some m /\ m_name m = x
                    /\ In m (methods Account))
                 (snd fam))
     families.
Proof.
  split; [reflexivity |].
  repeat (apply List.Forall_cons;
          [ split; [ discriminate
                   | repeat (apply List.Forall_cons;
                             [ eexists; split; [reflexivity |];
                               split; [reflexivity | simpl; tauto] |]);
                     apply List.Forall_nil ] |]).
  apply List.Forall_nil.
Qed.

(** C9. The nine [outcome_operations] all declare
    [Promise<FinalExecutionOutcome>], and they are the only methods that do;
    [createAndDeployContract] declares [Promise<Account>], and it is the
    only method that does. *)
Theorem state_changes_resolve_to_one_outcome_type :
  Forall (fun x => returns Account x = Some (TPromise FinalExecutionOutcome))
         outcome_operations
  /\ returns Account "createAndDeployContract" = Some (TPromise (TRef "Account"))
  /\ map m_name
       (List.filter (fun m => resolves_to_ref "FinalExecutionOutcome" (m_returns m))
                    (methods Account))
     = outcome_operations
  /\ map m_name
       (List.filter (fun m => resolves_to_ref "Account" (m_returns m))
                    (methods Account))
     = ["createAndDeployContract"].
Proof.
  split; [| by repeat split].
  repeat (apply List.Forall_cons; [reflexivity |]). apply List.Forall_nil.
Qed.

(** *** Errors *)

(** Three declared properties do speak of errors: the rejection switch of
    [signAndSendTransaction] and the two failure slots of the delegated
    stake records. *)
Lemma error_fields_are_declared :
  In StakedBalance (f_interfaces account_d_ts)
  /\ In (opt "error" TString) (i_props StakedBalance)
  /\ mentions_error "error" = true
  /\ In SignAndSendTransactionOptions (f_interfaces account_d_ts)
  /\ In (opt "returnError" TBoolean) (i_props SignAndSendTransactionOptions)
  /\ mentions_error "returnError" = true
  /\ ~ no_error_encoding account_d_ts.
Proof.
  repeat split; try (simpl; tauto).
  intros H.
  specialize (H StakedBalance (opt "error" TString)).
  assert (mentions_error "error" = false) as E by (apply H; simpl; tauto).
  discriminate E.
Qed.

(** The methods one of whose parameters binds a name that speaks of
    errors. *)
Lemma error_switch_only_on_signAndSendTransaction :
  map m_name
    (List.filter
       (fun m => existsb (fun p => existsb mentions_error
                                     (binding_names (b_binding p)))
                         (m_params m))
       (methods Account))
  = ["signAndSendTransaction"].
Proof. reflexivity. Qed.

(** No type name the file declares, imports, extends or mentions in a
    signature speaks of errors, so there is no error class, enumeration or
    error-typed result; what the file does declare are three error-carrying
    properties, and only these.  Of the members of the class, only the
    private [printLogsAndFailures] is named after failures. *)
Lemma declared_error_surface :
  List.filter mentions_error (type_names account_d_ts) = []
  /\ Forall (fun c => c_extends c = None) (f_classes account_d_ts)
  /\ List.filter mentions_error
       (map p_name (typed_props Account) ++ method_names Account
        ++ erased_members Account)
     = ["printLogsAndFailures"]
  /\ error_members account_d_ts =
     [ ("SignAndSendTransactionOptions", opt "returnError" TBoolean);
       ("StakedBalance", opt "error" TString);
       ("ActiveDelegatedStakeBalance",
        req "failedValidators" (TArray (TRef "StakedBalance"))) ].
Proof.
  split; [reflexivity |]. split; [| split; reflexivity].
  apply List.Forall_cons; [reflexivity | apply List.Forall_nil].
Qed.

(** *** The data model *)

(** [ActiveDelegatedStakeBalance] holds lists of another declared record. *)
Lemma delegated_stake_nests_staked_balances :
  In ActiveDelegatedStakeBalance data_model
  /\ find_prop (i_props ActiveDelegatedStakeBalance) "stakedValidators"
     = Some (req "stakedValidators" (TArray (TRef "StakedBalance")))
  /\ find_interface account_d_ts "StakedBalance" = Some StakedBalance
  /\ flat account_d_ts ActiveDelegatedStakeBalance = false
  /\ ~ Forall (flat_value_record account_d_ts) data_model.
Proof.
  repeat split; try (simpl; tauto).
  intros H. rewrite Forall_forall in H.
  destruct (H ActiveDelegatedStakeBalance) as [E _].
  - unfold data_model. repeat constructor.
  - discriminate E.
Qed.

End Declarations.

(** ** Instances *)

Section Instances.
Import Values.
Context {Connection AccessKeyView : Type}.

Implicit Types (this : Account Connection AccessKeyView).
Implicit Types (w : @write Connection AccessKeyView).
Implicit Types (ws : list (@write Connection AccessKeyView)).

Lemma readonly_fields :
  Decl.readonly_in Decl.Account "connection" = true
  /\ Decl.readonly_in Decl.Account "accountId" = true
  /\ Decl.readonly_in Decl.Account "accessKeyByPublicKeyCache" = false.
Proof. repeat split. Qed.

(** The check rejects exactly the assignments to the two read-only
    properties. *)
Lemma permitted_iff_cache w :
  permitted w = true <-> target w = "accessKeyByPublicKeyCache".
Proof. destruct w; simpl; split; (reflexivity || discriminate). Qed.

(** Without the check the assignment does take place: [exec] itself
    protects nothing. *)
Lemma exec_reassigns this c a :
  connection (exec (SetConnection c) this) = c
  /\ accountId (exec (SetAccountId a) this) = a.
Proof. split; reflexivity. Qed.

Lemma exec_frame w this :
  permitted w = true ->
  connection (exec w this) = connection this
  /\ accountId (exec w this) = accountId this.
Proof. destruct w; simpl; intros H; (discriminate H || (split; reflexivity)). Qed.

Lemma run_cons w ws this : run (w :: ws) this = run ws (exec w this).
Proof. reflexivity. Qed.

Lemma run_frame ws this :
  forallb permitted ws = true ->
  connection (run ws this) = connection this
  /\ accountId (run ws this) = accountId this.
Proof.
  revert this. induction ws as [| w ws IH]; intros this H.
  - split; reflexivity.
  - simpl in H. apply andb_true_iff in H as [Hw Hws].
    rewrite run_cons.
    destruct (IH (exec w this) Hws) as [-> ->].
    by apply exec_frame.
Qed.

(** The cache, on the other hand, is written by a permitted write. *)
Lemma cache_is_writable this k v :
  permitted (@PutCache Connection AccessKeyView k v) = true
  /\ accessKeyByPublicKeyCache (exec (PutCache k v) this) !! k = Some v.
Proof. split; [reflexivity |]. simpl. apply lookup_insert_eq. Qed.

Section FindAccessKey.
Context {PublicKey Action Failure : Type}.
Variable signer_public_key : Connection -> string -> settled Failure PublicKey.
Variable key_to_string : PublicKey -> string.
Variable view_access_key :
  Connection -> string -> string -> settled Failure AccessKeyView.

Abbreviation find :=
  (@findAccessKey Connection AccessKeyView PublicKey Action Failure
     signer_public_key key_to_string view_access_key).

(** A key already in the cache is answered from the cache, and the instance
    is left as it was. *)
Lemma findAccessKey_cached this receiverId actions pk v :
  signer_public_key (connection this) (accountId this) = Resolved pk ->
  accessKeyByPublicKeyCache this !! key_to_string pk = Some v ->
  find this receiverId actions = (this, Resolved (pk, v)).
Proof. intros Hk Hc. unfold findAccessKey. by rewrite Hk, Hc. Qed.

(** A key fetched from the provider is in the cache afterwards. *)
Lemma findAccessKey_fills_cache this receiverId actions pk v :
  signer_public_key (connection this) (accountId this) = Resolved pk ->
  accessKeyByPublicKeyCache this !! key_to_string pk = None ->
  view_access_key (connection this) (accountId this) (key_to_string pk)
    = Resolved v ->
  snd (find this receiverId actions) = Resolved (pk, v)
  /\ accessKeyByPublicKeyCache (fst (find this receiverId actions))
       !! key_to_string pk = Some v.
Proof.
  intros Hk Hc Hv. unfold findAccessKey. rewrite Hk, Hc, Hv. simpl.
  split; [reflexivity | apply lookup_insert_eq].
Qed.

(** What the operation does to the instance passes the declaration's
    check. *)
Lemma findAccessKey_writes this receiverId actions :
  exists ws,
    forallb permitted ws = true
    /\ fst (find this receiverId actions) = run ws this.
Proof.
  unfold findAccessKey.
  destruct (signer_public_key _ _) as [pk | e]; [| by exists []].
  simpl. destruct (accessKeyByPublicKeyCache this !! key_to_string pk) as [v |];
    [by exists [] |].
  destruct (view_access_key _ _ _) as [v | e]; [| by exists []].
  by exists [PutCache (key_to_string pk) v].
Qed.

(** Asking again gives the same answer and no longer changes the
    instance. *)
Lemma findAccessKey_again this receiverId actions receiverId' actions' r :
  snd (find this receiverId actions) = Resolved r ->
  find (fst (find this receiverId actions)) receiverId' actions'
  = (fst (find this receiverId actions), Resolved r).
Proof.
  unfold findAccessKey.
  destruct (signer_public_key (connection this) (accountId this))
    as [pk | e] eqn:Hk; [| discriminate].
  simpl.
  destruct (accessKeyByPublicKeyCache this !! key_to_string pk)
    as [v |] eqn:Hc.
  - simpl. intros [= <-]. by rewrite Hk, Hc.
  - destruct (view_access_key _ _ _) as [v | e]; [| discriminate].
    simpl. intros [= <-]. by rewrite Hk, lookup_insert_eq.
Qed.

(** C10. Two calls of [findAccessKey] on the same instance state, against
    the same key store and provider, that differ only in [receiverId] and
    [actions] settle alike: same result, same instance state afterwards. *)
Theorem findAccessKey_ignores_receiverId_and_actions this
    (receiverId1 receiverId2 : string) (actions1 actions2 : list Action) :
  findAccessKey signer_public_key key_to_string view_access_key
                this receiverId1 actions1
  = findAccessKey signer_public_key key_to_string view_access_key
                  this receiverId2 actions2.
Proof. unfold findAccessKey. reflexivity. Qed.

(** Its failures are those of the key store or of the provider. *)
Lemma findAccessKey_rejected this receiverId actions e :
  snd (find this receiverId actions) = Rejected e ->
  signer_public_key (connection this) (accountId this) = Rejected e
  \/ exists pk,
       signer_public_key (connection this) (accountId this) = Resolved pk
       /\ view_access_key (connection this) (accountId this) (key_to_string pk)
          = Rejected e.
Proof.
  unfold findAccessKey.
  destruct (signer_public_key _ _) as [pk | e'] eqn:Hk;
    [| simpl; intros [= <-]; by left].
  simpl.
  destruct (accessKeyByPublicKeyCache this !! key_to_string pk); [discriminate |].
  destruct (view_access_key _ _ _) as [v | e'] eqn:Hv; [discriminate |].
  simpl. intros [= <-]. right. by exists pk.
Qed.

End FindAccessKey.

Section Operations.
Context {Request Response Failure Args Result : Type}.
Variable transport : Connection -> Request -> settled Failure Response.

Implicit Types (s : @script AccessKeyView Request Response Result).
Implicit Types (updates : list (@cache_update AccessKeyView)).

Lemma bookkeeping_permitted updates :
  forallb permitted (map (@as_write Connection AccessKeyView) updates) = true.
Proof. induction updates as [| [k v | k] us IH]; simpl; auto. Qed.

(** Bookkeeping does write: a stored entry is there afterwards. *)
Lemma perform_stores (r : Result) k v this :
  accessKeyByPublicKeyCache
    (fst (perform transport (Return r [Store k v]) this)) !! k = Some v.
Proof. simpl. apply lookup_insert_eq. Qed.

Lemma perform_frame s this :
  connection (fst (perform transport s this)) = connection this
  /\ accountId (fst (perform transport s this)) = accountId this.
Proof.
  induction s as [r updates | request continue IH]; simpl.
  - apply run_frame, bookkeeping_permitted.
  - destruct (transport (connection this) request) as [response | e].
    + apply IH.
    + split; reflexivity.
Qed.

(** A rejected operation rejects with what the transport answered to the
    last request it sent, and has done no bookkeeping. *)
Lemma perform_rejected s this e :
  snd (perform transport s this) = Rejected e ->
  (exists earlier request,
      requests transport s this = earlier ++ [request]
      /\ transport (connection this) request = Rejected e)
  /\ fst (perform transport s this) = this.
Proof.
  induction s as [r updates | request continue IH]; simpl.
  - discriminate.
  - destruct (transport (connection this) request) as [response | e'] eqn:E.
    + intros H. destruct (IH response H) as [(earlier & last & Hreq & Hlast) Hfst].
      split; [| exact Hfst].
      exists (request :: earlier), last. by rewrite Hreq.
    + simpl. intros [= <-]. split; [| reflexivity].
      by exists [], request.
Qed.

(** A resolved operation had every request answered: no failure is
    swallowed on the way. *)
Lemma perform_resolved s this r :
  snd (perform transport s this) = Resolved r ->
  Forall (fun request => exists response,
            transport (connection this) request = Resolved response)
         (requests transport s this).
Proof.
  induction s as [r' updates | request continue IH]; simpl.
  - intros _. apply List.Forall_nil.
  - destruct (transport (connection this) request) as [response | e'] eqn:E.
    + intros H. apply List.Forall_cons; [by exists response | by apply IH].
    + discriminate.
Qed.

Variable body :
  string -> Args -> Account Connection AccessKeyView ->
  @script AccessKeyView Request Response Result.

(** C3. The typed properties of [Account] are [connection] and [accountId],
    both read-only, and [accessKeyByPublicKeyCache], an index from strings
    to [AccessKeyView] and the only one that is not read-only (the four
    private members are declared without a type).  Whatever operation is
    invoked, with whatever arguments and whatever the transport answers, the
    instance has the connection and the account id it had before. *)
Theorem only_the_cache_is_mutable (operation : string) (args : Args) this :
  Decl.typed_props Decl.Account =
    [ Decl.ro "connection" (Decl.TRef "Connection");
      Decl.ro "accountId" Decl.TString;
      Decl.req "accessKeyByPublicKeyCache"
               (Decl.TIndex Decl.TString Decl.AccessKeyView) ]
  /\ List.filter (fun p => negb (Decl.p_readonly p))
                 (Decl.typed_props Decl.Account) =
     [ Decl.req "accessKeyByPublicKeyCache"
                (Decl.TIndex Decl.TString Decl.AccessKeyView) ]
  /\ Decl.erased_members Decl.Account =
     [ "printLogsAndFailures"; "printLogs"; "encodeJSContractArgs"; "validateArgs" ]
  /\ connection (fst (invoke transport body operation args this))
     = connection this
  /\ accountId (fst (invoke transport body operation args this))
     = accountId this.
Proof.
  repeat (split; [reflexivity |]). unfold invoke. apply perform_frame.
Qed.

(** C4, as amended. The file declares no error taxonomy: for every
    operation, a failure is what the transport raised on the last request
    the operation sent, and no type name the file declares, imports,
    extends or mentions is an error type.  Three declared properties do
    encode an error case or an error-handling switch, and only these: the
    optional [returnError] of [SignAndSendTransactionOptions], the optional
    [error] of [StakedBalance], and [failedValidators] of
    [ActiveDelegatedStakeBalance]. *)
Theorem failures_are_raised_not_declared
    (operation : string) (args : Args) this :
  (forall e,
      snd (invoke transport body operation args this) = Rejected e ->
      exists earlier request,
        requests transport (body operation args this) this = earlier ++ [request]
        /\ transport (connection this) request = Rejected e)
  /\ List.filter Decl.mentions_error (Decl.type_names Decl.account_d_ts) = []
  /\ Forall (fun c => Decl.c_extends c = None) (Decl.f_classes Decl.account_d_ts)
  /\ Decl.error_members Decl.account_d_ts =
     [ ("SignAndSendTransactionOptions", Decl.opt "returnError" Decl.TBoolean);
       ("StakedBalance", Decl.opt "error" Decl.TString);
       ("ActiveDelegatedStakeBalance",
        Decl.req "failedValidators" (Decl.TArray (Decl.TRef "StakedBalance"))) ].
Proof.
  split.
  - intros e H. unfold invoke in H. by destruct (perform_rejected _ _ _ H).
  - destruct declared_error_surface as (H1 & H2 & _ & H4). by repeat split.
Qed.

End Operations.
End Instances.

(** *** The instance statements at a concrete account *)

(** A first lookup of alice.near's key goes to the provider and fills the
    cache; the arguments play no part. *)
Example findAccessKey_first_lookup :
  let find :=
    @Values.findAccessKey string nat string nat string
      (fun _ account => if String.eqb account "alice.near"
                        then Values.Resolved "ed25519:4Wk"
                        else Values.Rejected "PublicKeyNotFound")
      (fun pk => pk)
      (fun _ _ _ => Values.Resolved 7) in
  let alice := Values.mkAccount "testnet" "alice.near" ∅ in
  snd (find alice "bob.near" [1; 2]) = Values.Resolved ("ed25519:4Wk", 7)
  /\ Values.accessKeyByPublicKeyCache (fst (find alice "bob.near" [1; 2]))
       !! "ed25519:4Wk" = Some 7
  /\ snd (find (Values.mkAccount "testnet" "carol.near" ∅) "bob.near" [])
     = Values.Rejected "PublicKeyNotFound".
Proof. repeat split. Qed.


(** Two remote calls, the second of which the transport rejects: the
    operation rejects with that failure after sending both requests, and
    the entry it would have stored is not in the cache. *)
Lemma failures_are_raised_not_declared_witness :
  let transport := fun (_ : string) (request : string) =>
    if String.eqb request "view_access_key"
    then Values.Rejected "timeout" else Values.Resolved 1 in
  let body := fun (_ : string) (_ : unit) (_ : Values.Account string nat) =>
    Values.Call "status" (fun _ =>
    Values.Call "view_access_key" (fun v =>
    Values.Return v [Values.Store "ed25519:4Wk" v])) in
  let alice := Values.mkAccount "testnet" "alice.near" ∅ in
  Values.invoke transport body "getAccessKeys" tt alice
  = (alice, Values.Rejected "timeout")
  /\ exists earlier request,
       Values.requests transport (body "getAccessKeys" tt alice) alice
       = earlier ++ [request]
       /\ transport "testnet" request = Values.Rejected "timeout".
Proof.
  intros transport body alice. split; [reflexivity |].
  destruct (failures_are_raised_not_declared transport body "getAccessKeys" tt alice)
    as [H _].
  apply H. reflexivity.
Defined.

(** The same body against a transport that answers: the entry is stored,
    the connection and the account id are as before. *)
Example invoke_stores_and_keeps_identity :
  let transport := fun (_ : string) (_ : string) =>
    @Values.Resolved string nat 7 in
  let body := fun (_ : string) (_ : unit) (_ : Values.Account string nat) =>
    Values.Call "status" (fun _ =>
    Values.Call "view_access_key" (fun v =>
    Values.Return v [Values.Store "ed25519:4Wk" v])) in
  let alice := Values.mkAccount "testnet" "alice.near" ∅ in
  snd (Values.invoke transport body "getAccessKeys" tt alice) = Values.Resolved 7
  /\ Values.accessKeyByPublicKeyCache
       (fst (Values.invoke transport body "getAccessKeys" tt alice))
       !! "ed25519:4Wk" = Some 7
  /\ Values.connection
       (fst (Values.invoke transport body "getAccessKeys" tt alice)) = "testnet"
  /\ Values.accountId
       (fst (Values.invoke transport body "getAccessKeys" tt alice)) = "alice.near".
Proof. repeat split. Qed.

(** ** The records as sets of values *)

Section Records.
Import Decl Conformance.

Lemma field_app x (a b : list (string * value)) :
  field x (a ++ b) = match field x a with Some v => Some v | None => field x b end.
Proof.
  induction a as [| [y v] a IH]; simpl; [reflexivity |].
  by destruct (String.eqb x y).
Qed.

Lemma field_filter (q : string -> bool) x (o : list (string * value)) :
  field x (List.filter (fun e => q (fst e)) o) = if q x then field x o else None.
Proof.
  induction o as [| [y v] o IH]; simpl; [by destruct (q x) |].
  destruct (q y) eqn:Hy; simpl; destruct (String.eqb x y) eqn:E;
    try apply String.eqb_eq in E; subst; rewrite ?Hy; try rewrite IH; auto.
  by rewrite Hy.
Qed.

Lemma field_mix pick x o1 o2 :
  field x (mix pick o1 o2) = if pick x then field x o1 else field x o2.
Proof.
  unfold mix. rewrite field_app.
  rewrite (field_filter pick), (field_filter (fun y => negb (pick y))).
  destruct (pick x); simpl; [by destruct (field x o1) | reflexivity].
Qed.

(** The objects of a declared interface are closed under recombination:
    the interface checks each property on its own. *)
Lemma has_type_recombines f n x pick o1 o2 :
  has_type f n (VObject o1) (TRef x) = true ->
  has_type f n (VObject o2) (TRef x) = true ->
  has_type f n (VObject (mix pick o1 o2)) (TRef x) = true.
Proof.
  destruct n as [| k]; simpl; [discriminate |].
  destruct (find_interface f x); [| discriminate].
  rewrite !forallb_forall. intros H1 H2 p Hp.
  rewrite field_mix. destruct (pick (p_name p)); [by apply H1 | by apply H2].
Qed.

Lemma of_StakedBalance_conforms n r :
  has_type account_d_ts (S (S n)) (of_StakedBalance r) (TRef "StakedBalance") = true.
Proof. by destruct r as [v [a |] [e |]]. Qed.

Lemma of_StakedBalances_conform n rs :
  forallb (fun w => has_type account_d_ts (S (S n)) w (TRef "StakedBalance"))
          (map of_StakedBalance rs) = true.
Proof.
  induction rs as [| r rs IH]; [reflexivity |].
  change (has_type account_d_ts (S (S n)) (of_StakedBalance r) (TRef "StakedBalance")
          && forallb (fun w => has_type account_d_ts (S (S n)) w (TRef "StakedBalance"))
                     (map of_StakedBalance rs) = true).
  by rewrite of_StakedBalance_conforms, IH.
Qed.

Lemma of_ActiveDelegatedStakeBalance_conforms n r :
  has_type account_d_ts (S (S (S (S n)))) (of_ActiveDelegatedStakeBalance r)
           (TRef "ActiveDelegatedStakeBalance") = true.
Proof.
  destruct r as [sv fv t].
  pose proof (of_StakedBalances_conform n sv) as Hsv.
  pose proof (of_StakedBalances_conform n fv) as Hfv.
  simpl. simpl in Hsv, Hfv. rewrite Hsv, Hfv.
  by destruct t.
Qed.

(** The declared type relates neither the presence nor the content of the
    fields: a staked balance with both an amount and an error, or with
    neither, is one, and so is an account balance whose available part
    exceeds its total. *)
Example unrelated_fields :
  has_type account_d_ts 2
    (VObject [("validatorId", VString "pool.near")]) (TRef "StakedBalance") = true
  /\ has_type account_d_ts 2
       (VObject [("validatorId", VString "pool.near");
                 ("amount", VString "5"); ("error", VString "timed out")])
       (TRef "StakedBalance") = true
  /\ has_type account_d_ts 2
       (VObject [("total", VString "1"); ("stateStaked", VString "0");
                 ("staked", VString "0"); ("available", VString "7")])
       (TRef "AccountBalance") = true
  /\ has_type account_d_ts 2
       (VObject [("total", VString "1"); ("stateStaked", VString "0");
                 ("staked", VString "0")])
       (TRef "AccountBalance") = false.
Proof. repeat split. Qed.

(** C5, as amended. [AccountBalance], [AccountAuthorizedApp] and
    [StakedBalance] are flat value records: simple field containers, every
    field a string, with no invariants relating their fields, no lifecycle
    and no ownership relationships.  [ActiveDelegatedStakeBalance] is a
    simple field container with no invariants relating its fields and no
    lifecycle either, but it is not flat and it does hold other records:
    [stakedValidators] and [failedValidators] are arrays of
    [StakedBalance], beside [total: BN | string].

    No lifecycle: nothing read-only, no function-valued property, no base
    interface.  No ownership: no property holds a record or class of the
    file.  No invariants: whatever the field values, the object is one of
    the interface, and its objects are closed under taking each field from
    one of two of them. *)
Theorem data_model_records :
  Forall (flat_value_record account_d_ts)
         [AccountBalance; AccountAuthorizedApp; StakedBalance]
  /\ Forall (fun i => Forall (fun p => p_type p = TString) (i_props i))
            [AccountBalance; AccountAuthorizedApp; StakedBalance]
  /\ Forall (fun i => held_records account_d_ts i = [])
            [AccountBalance; AccountAuthorizedApp; StakedBalance]
  /\ Forall (fun i => plain_container i = true) data_model
  /\ i_props ActiveDelegatedStakeBalance =
     [ req "stakedValidators" (TArray (TRef "StakedBalance"));
       req "failedValidators" (TArray (TRef "StakedBalance"));
       req "total" (TUnion BN TString) ]
  /\ held_records account_d_ts ActiveDelegatedStakeBalance
     = ["StakedBalance"; "StakedBalance"]
  /\ (forall n r, has_type account_d_ts (S (S n)) (of_AccountBalance r)
                           (TRef "AccountBalance") = true)
  /\ (forall n r, has_type account_d_ts (S (S n)) (of_AccountAuthorizedApp r)
                           (TRef "AccountAuthorizedApp") = true)
  /\ (forall n r, has_type account_d_ts (S (S n)) (of_StakedBalance r)
                           (TRef "StakedBalance") = true)
  /\ (forall n r, has_type account_d_ts (S (S (S (S n))))
                           (of_ActiveDelegatedStakeBalance r)
                           (TRef "ActiveDelegatedStakeBalance") = true)
  /\ (forall i n pick o1 o2,
        In i data_model ->
        has_type account_d_ts n (VObject o1) (TRef (i_name i)) = true ->
        has_type account_d_ts n (VObject o2) (TRef (i_name i)) = true ->
        has_type account_d_ts n (VObject (mix pick o1 o2)) (TRef (i_name i))
        = true).
Proof.
  split.
  { repeat (apply List.Forall_cons;
            [ split; [reflexivity |]; split; [reflexivity |];
              repeat (apply List.Forall_cons; [reflexivity |]);
              apply List.Forall_nil |]).
    apply List.Forall_nil. }
  split.
  { repeat (apply List.Forall_cons;
            [ repeat (apply List.Forall_cons; [reflexivity |]);
              apply List.Forall_nil |]).
    apply List.Forall_nil. }
  split.
  { repeat (apply List.Forall_cons; [reflexivity |]). apply List.Forall_nil. }
  split.
  { repeat (apply List.Forall_cons; [reflexivity |]). apply List.Forall_nil. }
  split; [reflexivity |]. split; [reflexivity |].
  split; [by intros n [] |]. split; [by intros n [] |].
  split; [exact of_StakedBalance_conforms |].
  split; [exact of_ActiveDelegatedStakeBalance_conforms |].
  intros i n pick o1 o2 _. apply has_type_recombines.
Qed.

End Records.

(** ** The declared surface as a whole *)

Section SurfaceFacts.
Import Decl Surface.

Ltac walk H :=
  simpl in H;
  repeat match type of H with
         | _ \/ _ => destruct H as [H | H]
         | False => destruct H
         end;
  subst.

Lemma mem_string_In x xs : mem_string x xs = true -> In x xs.
Proof.
  unfold mem_string. rewrite existsb_exists.
  intros (y & Hy & E). apply String.eqb_eq in E. by subst.
Qed.

Lemma In_mem_string x xs : In x xs -> mem_string x xs = true.
Proof.
  intros H. unfold mem_string. rewrite existsb_exists.
  exists x. split; [done | apply String.eqb_refl].
Qed.

(** A name that occurs once finds its owner. *)
Lemma find_by_unique_name {A} (name : A -> string) (l : list A) (a : A) :
  NoDup (map name l) -> In a l ->
  List.find (fun y => String.eqb (name y) (name a)) l = Some a.
Proof.
  induction l as [| b l IH]; intros Hnd Hin; [destruct Hin |].
  simpl in Hnd. apply NoDup_cons in Hnd as [Hb Hnd].
  simpl. destruct Hin as [-> | Hin].
  - by rewrite String.eqb_refl.
  - destruct (String.eqb (name b) (name a)) eqn:E.
    + apply String.eqb_eq in E. exfalso. apply Hb.
      rewrite E. apply list_elem_of_In, in_map, Hin.
    + by apply IH.
Qed.

Lemma assoc_consistent (l : list (string * ty)) :
  (forall p, In p l -> assoc (fst p) l = Some (snd p)) ->
  forall x t t', In (x, t) l -> In (x, t') l -> t = t'.
Proof.
  intros H x t t' Ht Ht'.
  apply H in Ht, Ht'. simpl in Ht, Ht'. congruence.
Qed.

Lemma follow_sound f roots xs :
  (forall x, In x xs -> mentions f roots x) ->
  forall y, In y (follow f xs) -> mentions f roots y.
Proof.
  intros Hxs y Hy. unfold follow in Hy.
  apply in_app_or in Hy as [Hy | Hy]; [by apply Hxs |].
  apply in_flat_map in Hy as (x & Hx & Hy).
  destruct (find_interface f x) as [i |] eqn:E; [| destruct Hy].
  exact (mentions_step f roots x i y (Hxs x Hx) E Hy).
Qed.

Lemma reach_sound f roots n :
  forall xs,
    (forall x, In x xs -> mentions f roots x) ->
    forall y, In y (reach n f xs) -> mentions f roots y.
Proof.
  induction n as [| n IH]; intros xs Hxs y Hy; simpl in Hy.
  - by apply Hxs.
  - apply (IH (follow f xs)); [| exact Hy].
    by apply follow_sound.
Qed.

Lemma public_surface_sound f c y :
  In y (public_surface f c) -> mentions f (public_roots c) y.
Proof.
  apply reach_sound. intros x Hx. by apply mentions_root.
Qed.

(** X1. The file is closed: every type name written in it, the built-in
    generics [Promise] and [Array] included, is declared in it, imported on
    lines 2-7, or ambient, and is exactly one of the three. *)
Theorem every_type_name_resolves x :
  In x (file_type_names account_d_ts) ->
  (In x (declared_names account_d_ts)
   /\ ~ In x (imported_names account_d_ts) /\ ~ In x ambient)
  \/ (In x (imported_names account_d_ts)
      /\ ~ In x (declared_names account_d_ts) /\ ~ In x ambient)
  \/ (In x ambient
      /\ ~ In x (declared_names account_d_ts)
      /\ ~ In x (imported_names account_d_ts)).
Proof.
  intros Hx.
  pose (d := fun y => mem_string y (declared_names account_d_ts)).
  pose (i := fun y => mem_string y (imported_names account_d_ts)).
  pose (a := fun y => mem_string y ambient).
  assert (forallb (fun y => (d y && negb (i y) && negb (a y))
                            || (i y && negb (d y) && negb (a y))
                            || (a y && negb (d y) && negb (i y)))
                  (file_type_names account_d_ts) = true) as H by reflexivity.
  rewrite forallb_forall in H. specialize (H x Hx).
  assert (forall l, mem_string x l = false -> ~ In x l) as Hno.
  { intros l E Hin. apply In_mem_string in Hin. congruence. }
  unfold d, i, a in H.
  repeat (apply orb_true_iff in H as [H | H]);
    apply andb_true_iff in H as [H H3]; apply andb_true_iff in H as [H1 H2];
    apply negb_true_iff in H2, H3; apply mem_string_In in H1;
    [left | right; left | right; right]; auto.
Qed.

(** X2. No import is idle: every name imported on lines 2-7 is written in a
    declaration of the file. *)
Theorem every_import_is_used x :
  In x (imported_names account_d_ts) -> In x (file_refs account_d_ts).
Proof.
  intros Hx. apply mem_string_In.
  assert (forallb (fun y => mem_string y (file_refs account_d_ts))
                  (imported_names account_d_ts) = true) as H by reflexivity.
  rewrite forallb_forall in H. by apply H.
Qed.

(** X3. An interface that extends another extends one declared in the file
    that has no base of its own, adds only optional properties, and
    redefines none of the inherited ones; so it requires exactly what its
    base requires. *)
Theorem derived_interfaces_add_only_optional_props i b :
  In i (f_interfaces account_d_ts) -> In b (i_extends i) ->
  (exists j, find_interface account_d_ts b = Some j /\ i_extends j = [])
  /\ Forall (fun p => p_optional p = true) (i_props i)
  /\ (forall p, In p (i_props i) ->
        ~ In (p_name p) (map p_name (props_of account_d_ts b)))
  /\ props_of account_d_ts (i_name i) = props_of account_d_ts b ++ i_props i
  /\ required (props_of account_d_ts (i_name i))
     = required (props_of account_d_ts b).
Proof.
  intros Hi Hb. walk Hi; walk Hb.
  - split; [by eexists |].
    split; [repeat (apply List.Forall_cons; [reflexivity |]); apply List.Forall_nil |].
    split; [| by split].
    intros p Hp. walk Hp; simpl; intuition discriminate.
  - split; [by eexists |].
    split; [repeat (apply List.Forall_cons; [reflexivity |]); apply List.Forall_nil |].
    split; [| by split].
    intros p Hp. walk Hp; simpl; intuition discriminate.
Qed.

(** X4. Every name a method destructures from its options parameter is a
    property its options type offers.  [signAndSendTransaction] leaves
    exactly [walletMeta] and [walletCallbackUrl] unbound, [viewFunction]
    exactly [gas] and [attachedDeposit]; every other method, [functionCall]
    among them, binds all that is offered. *)
Theorem destructured_names_are_offered m p :
  In m (methods Account) -> In p (m_params m) ->
  (forall xs x, b_binding p = Destructured xs -> In x xs ->
                In x (offered account_d_ts p))
  /\ (m_name m = "signAndSendTransaction" ->
      b_type p = TRef "SignAndSendTransactionOptions"
      /\ unbound account_d_ts p = ["walletMeta"; "walletCallbackUrl"])
  /\ (m_name m = "viewFunction" ->
      b_type p = TRef "ViewFunctionCallOptions"
      /\ unbound account_d_ts p = ["gas"; "attachedDeposit"])
  /\ (m_name m = "functionCall" ->
      b_type p = TRef "ChangeFunctionCallOptions"
      /\ length (offered account_d_ts p) = 9)
  /\ (m_name m <> "signAndSendTransaction" -> m_name m <> "viewFunction" ->
      unbound account_d_ts p = [])
  /\ Forall (fun x => exists m', find_method Account x = Some m'
                                 /\ In m' (methods Account)
                                 /\ length (m_params m') = 1)
            ["signAndSendTransaction"; "viewFunction"; "functionCall"].
Proof.
  intros Hm Hp.
  split.
  { walk Hm; walk Hp; intros xs x E Hx; simpl in E; try discriminate E;
      injection E as <-; walk Hx; vm_compute; tauto. }
  split; [| split; [| split; [| split]]].
  - walk Hm; walk Hp; simpl; intros E; (discriminate E || by split).
  - walk Hm; walk Hp; simpl; intros E; (discriminate E || by split).
  - walk Hm; walk Hp; simpl; intros E; (discriminate E || by split).
  - walk Hm; walk Hp; simpl; intros E1 E2; (reflexivity || congruence).
  - repeat (apply List.Forall_cons;
            [eexists; split; [reflexivity |]; split; [simpl; tauto | reflexivity] |]).
    apply List.Forall_nil.
Qed.

(** X5. In every method the required parameters come first, so a call may
    stop after them.  [addKey] requires one of its four parameters and
    [viewState] one of its two; every other method requires all it
    declares. *)
Theorem optional_parameters_trail m :
  In m (methods Account) ->
  required_first (m_params m) = true
  /\ (m_name m = "addKey" ->
      min_arity (m_params m) = 1 /\ length (m_params m) = 4)
  /\ (m_name m = "viewState" ->
      min_arity (m_params m) = 1 /\ length (m_params m) = 2)
  /\ (m_name m <> "addKey" -> m_name m <> "viewState" ->
      min_arity (m_params m) = length (m_params m))
  /\ In "addKey" (method_names Account)
  /\ In "viewState" (method_names Account).
Proof.
  intros Hm.
  split; [walk Hm; reflexivity |].
  split; [walk Hm; simpl; intros E; (discriminate E || by split) |].
  split; [walk Hm; simpl; intros E; (discriminate E || by split) |].
  split; [walk Hm; simpl; intros E1 E2; (reflexivity || congruence) |].
  split; simpl; tauto.
Qed.

(** X6. Of the members of [Account], [signTransaction] is the only
    protected one, and the private ones are exactly those declared without
    a type; every other member is public. *)
Theorem member_visibility d :
  In d (c_members Account) ->
  (member_access d = Protected <-> member_name d = "signTransaction")
  /\ (member_access d = Private <-> exists a x, d = MErased a x)
  /\ (member_access d = Private <-> In (member_name d) (erased_members Account)).
Proof.
  intros Hd. walk Hd;
    (split; [split; (reflexivity || discriminate) |]);
    (split; (split; [ (discriminate || (intros _; eauto; simpl; tauto))
                    | (reflexivity
                       || (intros (a & x & E); discriminate E)
                       || (simpl; intuition discriminate)) ])).
Qed.

Lemma method_names_distinct : NoDup (method_names Account).
Proof. apply (bool_decide_unpack _). by vm_compute. Qed.

(** X7. No method of [Account] is overloaded: a method is found under its
    name, two methods of the same name are the same method, and no method
    shares its name with a property or a private member. *)
Theorem method_names_are_unambiguous m :
  In m (methods Account) ->
  find_method Account (m_name m) = Some m
  /\ (forall m', In m' (methods Account) -> m_name m' = m_name m -> m' = m)
  /\ ~ In (m_name m) (map p_name (typed_props Account) ++ erased_members Account).
Proof.
  intros Hm.
  cut ((find_method Account (m_name m) = Some m
        /\ (forall m', In m' (methods Account) -> m_name m' = m_name m -> m' = m))
       /\ ~ In (m_name m)
              (map p_name (typed_props Account) ++ erased_members Account));
    [tauto |].
  split; [| walk Hm; simpl; intuition discriminate].
  assert (forall a, In a (methods Account) ->
                    find_method Account (m_name a) = Some a) as Hfind.
  { intros a Ha. unfold find_method.
    apply (find_by_unique_name m_name); [exact method_names_distinct | exact Ha]. }
  split; [by apply Hfind |].
  intros m' Hm' E.
  pose proof (Hfind m Hm) as H1. pose proof (Hfind m' Hm') as H2.
  rewrite E in H2. congruence.
Qed.

Lemma named_params_assoc p :
  In p (named_params Account) ->
  assoc (fst p) (named_params Account) = Some (snd p).
Proof. intros Hp. walk Hp; reflexivity. Qed.

(** X8. A parameter name stands for one type throughout the class,
    constructor included: two named parameters of the same name have the
    same type. *)
Theorem parameter_names_fix_their_types x t t' :
  In (x, t) (named_params Account) ->
  In (x, t') (named_params Account) ->
  t = t'.
Proof. apply assoc_consistent. exact named_params_assoc. Qed.

(** X9. Every interface the file declares is mentioned by the public
    members of [Account], directly or through other declared interfaces;
    this includes the two interfaces the file does not export,
    [StakedBalance] and [ActiveDelegatedStakeBalance]. *)
Theorem every_interface_is_on_the_public_surface i :
  In i (f_interfaces account_d_ts) ->
  mentions account_d_ts (public_roots Account) (i_name i)
  /\ (i_exported i = false <->
      i = StakedBalance \/ i = ActiveDelegatedStakeBalance).
Proof.
  intros Hi. split.
  - apply public_surface_sound, mem_string_In.
    walk Hi; by vm_compute.
  - walk Hi; simpl; split;
      (discriminate || reflexivity || auto
       || (intros [E | E]; discriminate E)).
Qed.

(** X10. Promises occur only as the result of a method: each method
    resolves to a type without promises and takes parameters without
    promises, and no property of a declared interface holds one. *)
Theorem promises_only_as_results m :
  In m (methods Account) ->
  (exists r, m_returns m = TPromise r /\ promise_free r = true)
  /\ Forall (fun p => promise_free (b_type p) = true) (m_params m)
  /\ Forall (fun i => Forall (fun p => promise_free (p_type p) = true) (i_props i))
            (f_interfaces account_d_ts).
Proof.
  intros Hm. split; [| split].
  - walk Hm; by eexists.
  - apply List.Forall_forall. intros p Hp. walk Hm; walk Hp; reflexivity.
  - apply List.Forall_forall. intros i Hi. apply List.Forall_forall. intros p Hp.
    walk Hi; walk Hp; reflexivity.
Qed.

(** X11. The unchecked type [any] is confined to view calls and the two
    converter callbacks: [viewFunction] is the only method with [any] in
    its signature, and [stringify] and [parse] are the only interface
    properties with [any] in their type. *)
Theorem any_is_confined m :
  In m (methods Account) ->
  (has_any (m_returns m) || existsb (fun p => has_any (b_type p)) (m_params m)
   = true <-> m_name m = "viewFunction")
  /\ (forall i p, In i (f_interfaces account_d_ts) -> In p (i_props i) ->
        (has_any (p_type p) = true
         <-> p_name p = "stringify" \/ p_name p = "parse")).
Proof.
  intros Hm. split.
  - walk Hm; simpl; split; (reflexivity || discriminate).
  - intros i p Hi Hp. walk Hi; walk Hp; simpl;
      split; (discriminate || intuition discriminate || auto).
Qed.

End SurfaceFacts.

(** *** The surface statements at concrete members *)

Section SurfaceWitnesses.
Import Decl Surface.

Lemma every_type_name_resolves_witness :
  In "Promise" (file_type_names account_d_ts)
  /\ In "Promise" ambient
  /\ ~ In "Promise" (declared_names account_d_ts)
  /\ ~ In "Promise" (imported_names account_d_ts).
Proof.
  split; [vm_compute; tauto |].
  destruct (every_type_name_resolves "Promise") as [H | [H | H]];
    [vm_compute; tauto | | | exact H].
  - destruct H as (H & _). exfalso. simpl in H. intuition discriminate.
  - destruct H as (H & _). exfalso. simpl in H. intuition discriminate.
Defined.

Lemma every_import_is_used_witness :
  In "Connection" (imported_names account_d_ts)
  /\ In "Connection" (file_refs account_d_ts).
Proof.
  split; [vm_compute; tauto |].
  apply (every_import_is_used "Connection"). vm_compute. tauto.
Defined.

Lemma derived_interfaces_add_only_optional_props_witness :
  In ViewFunctionCallOptions (f_interfaces account_d_ts)
  /\ In "FunctionCallOptions" (i_extends ViewFunctionCallOptions)
  /\ required (props_of account_d_ts "ViewFunctionCallOptions")
     = required (props_of account_d_ts "FunctionCallOptions").
Proof.
  split; [simpl; tauto |]. split; [simpl; tauto |].
  destruct (derived_interfaces_add_only_optional_props
              ViewFunctionCallOptions "FunctionCallOptions")
    as (_ & _ & _ & _ & H); [simpl; tauto | simpl; tauto | exact H].
Defined.

Lemma destructured_names_are_offered_witness :
  let p := pattern ["contractId"; "methodName"; "args"; "parse";
                    "stringify"; "jsContract"; "blockQuery"]
                   (TRef "ViewFunctionCallOptions") in
  let m := Method Public "viewFunction" [p] (TPromise TAny) in
  In m (methods Account) /\ In p (m_params m)
  /\ In "parse" (offered account_d_ts p).
Proof.
  intros p m. split; [simpl; tauto |]. split; [simpl; tauto |].
  destruct (destructured_names_are_offered m p) as [H _];
    [simpl; tauto | simpl; tauto |].
  apply (H _ "parse" eq_refl). simpl. tauto.
Defined.

Lemma optional_parameters_trail_witness :
  let m := Method Public "addKey"
             [ arg "publicKey" key;
               arg_opt "contractId" TString;
               arg_opt "methodNames" (TUnion TString (TArray TString));
               arg_opt "amount" BN ]
             (TPromise FinalExecutionOutcome) in
  In m (methods Account) /\ required_first (m_params m) = true.
Proof.
  intros m. split; [simpl; tauto |].
  destruct (optional_parameters_trail m) as [H _]; [simpl; tauto | exact H].
Defined.

Lemma member_visibility_witness :
  let d := MErased Private "validateArgs" in
  In d (c_members Account) /\ member_access d = Private.
Proof.
  intros d. split; [simpl; tauto |].
  destruct (member_visibility d) as (_ & H & _); [simpl; tauto |].
  apply H. by exists Private, "validateArgs".
Defined.

Lemma method_names_are_unambiguous_witness :
  let m := Method Public "sendMoney"
             [ arg "receiverId" TString; arg "amount" BN ]
             (TPromise FinalExecutionOutcome) in
  In m (methods Account) /\ find_method Account "sendMoney" = Some m.
Proof.
  intros m. split; [simpl; tauto |].
  destruct (method_names_are_unambiguous m) as (H & _); [simpl; tauto | exact H].
Defined.

Lemma parameter_names_fix_their_types_witness :
  In ("amount", BN) (named_params Account)
  /\ In ("amount", TRef "BN") (named_params Account)
  /\ BN = TRef "BN".
Proof.
  split; [simpl; tauto |]. split; [simpl; tauto |].
  apply (parameter_names_fix_their_types "amount"); simpl; tauto.
Defined.

Lemma every_interface_is_on_the_public_surface_witness :
  In StakedBalance (f_interfaces account_d_ts)
  /\ mentions account_d_ts (public_roots Account) "StakedBalance".
Proof.
  split; [simpl; tauto |].
  destruct (every_interface_is_on_the_public_surface StakedBalance) as [H _];
    [simpl; tauto | exact H].
Defined.

Lemma promises_only_as_results_witness :
  let m := Method Public "getAccountBalance" []
             (TPromise (TRef "AccountBalance")) in
  In m (methods Account)
  /\ exists r, m_returns m = TPromise r /\ promise_free r = true.
Proof.
  intros m. split; [simpl; tauto |].
  destruct (promises_only_as_results m) as [H _]; [simpl; tauto | exact H].
Defined.

Lemma any_is_confined_witness :
  let m := Method Public "getAccessKeys" []
             (TPromise (TArray (TRef "AccessKeyInfoView"))) in
  In m (methods Account)
  /\ (has_any (m_returns m) || existsb (fun p => has_any (b_type p)) (m_params m)
      = true <-> m_name m = "viewFunction").
Proof.
  intros m. split; [simpl; tauto |].
  destruct (any_is_confined m) as [H _]; [simpl; tauto | exact H].
Defined.

End SurfaceWitnesses.
